(** * Tab Audio Booster: the content script's [AudioBooster] class

    A shallow embedding of [content/content.js].  The class instance
    ([this]) and the part of the browser it talks to (Web Audio, the
    console, the DOM nodes handed to the mutation observer, the extension
    message channel) are explicit state; every method is a function that
    takes the world before the call and returns the world after it. *)

From Stdlib Require Import QArith Qabs.
From stdpp Require Import base gmap sets list strings.
From stdpp Require Import pretty.

Local Open Scope string_scope.
Local Open Scope list_scope.

(** ** The DOM as the content script sees it *)

(** A media element is a registry key by object identity. *)
Definition Element := positive.

(** Nodes delivered in [mutation.addedNodes]: elements carry their
    identity, their [nodeName] (upper case for HTML elements) and their
    children; character data nodes have neither children nor
    [querySelectorAll]. *)
#[warnings="-register-all"] Inductive Node :=
| ElementNode (id : Element) (name : string) (children : list Node)
| TextNode (data : string)
| CommentNode (data : string).

Definition nodeName (n : Node) : string :=
  match n with
  | ElementNode _ name _ => name
  | TextNode _ => "#text"
  | CommentNode _ => "#comment"
  end.

Definition childNodes (n : Node) : list Node :=
  match n with
  | ElementNode _ _ children => children
  | _ => []
  end.

(** [node.nodeName === 'AUDIO' || node.nodeName === 'VIDEO'] *)
Definition isMediaName (name : string) : bool :=
  bool_decide (name = "AUDIO") || bool_decide (name = "VIDEO").

(** The elements of the subtree rooted at [n], [n] included, that match
    the selector ['audio, video'], in document order. *)
Fixpoint matchMedia (n : Node) : list Element :=
  match n with
  | ElementNode id name children =>
      (if isMediaName name then [id] else []) ++ flat_map matchMedia children
  | _ => []
  end.

(** [node.querySelectorAll]: present on elements only ([None] is the
    missing property); when present it searches the descendants of the
    node, never the node itself. *)
Definition querySelectorAll (n : Node) : option (list Element) :=
  match n with
  | ElementNode _ _ children => Some (flat_map matchMedia children)
  | _ => None
  end.

(** [document.querySelectorAll('audio, video')] over the document's
    children. *)
Definition document_querySelectorAll (document : list Node) : list Element :=
  flat_map matchMedia document.

(** [d] is a descendant of [n]: a child, or a descendant of a child. *)
Inductive Descendant : Node -> Node -> Prop :=
| Descendant_child (d n : Node) :
    In d (childNodes n) -> Descendant d n
| Descendant_deeper (d c n : Node) :
    In c (childNodes n) -> Descendant d c -> Descendant d n.

Record MutationRecord := { addedNodes : list Node }.

(** ** Web Audio objects *)

Record AudioParam := { value : Q }.

Inductive AudioContextState := suspended | running | closed.

(** The shared context.  [ctxId] is the identity of the instance,
    [resumeCalls] counts the [resume()] requests made on it, and
    [connections] is its audio graph, an edge per [connect] call between
    node identities (the destination is node [0]). *)
Record AudioContext := {
  ctxId : nat;
  state : AudioContextState;
  resumeCalls : nat;
  nodesCreated : nat;
  connections : list (nat * nat)
}.

Definition destination : nat := 0.

Record MediaElementAudioSourceNode := { sourceId : nat; mediaElement : Element }.
Record GainNode := { gainId : nat; gain : AudioParam }.
Record DynamicsCompressorNode := {
  compressorId : nat;
  threshold : AudioParam;
  knee : AudioParam;
  ratio : AudioParam;
  attack : AudioParam;
  release : AudioParam
}.

(** The value stored in the registry: [{ source, gainNode, compressor }]. *)
Record Chain := {
  source : MediaElementAudioSourceNode;
  gainNode : GainNode;
  compressor : DynamicsCompressorNode
}.

Record DOMException := { errorName : string; message : string }.

Inductive Completion (A : Type) :=
| Normal (a : A)
| Throw (error : DOMException).
Arguments Normal {A} a.
Arguments Throw {A} error.

(** ** The browser and the class instance *)

(** What the content script can reach of the browser: the autoplay
    policy, how many [AudioContext] instances it has constructed, the
    media elements whose output is already captured by a
    [MediaElementAudioSourceNode] (of the page's own graph or of the
    booster), and the console. *)
Record Browser := {
  autoplayAllowed : bool;
  contextsCreated : nat;
  captured : gset Element;
  console : list (string * string)
}.

(** The fields of [AudioBooster]. *)
Record AudioBooster := {
  audioContext : option AudioContext;
  mediaElements : gmap Element Chain;
  gainValue : Q
}.

Record World := { this : AudioBooster; browser : Browser }.

(** *** Field updates *)

Definition set_audioContext (c : option AudioContext) (t : AudioBooster) : AudioBooster :=
  {| audioContext := c; mediaElements := mediaElements t; gainValue := gainValue t |}.

Definition set_mediaElements (m : gmap Element Chain) (t : AudioBooster) : AudioBooster :=
  {| audioContext := audioContext t; mediaElements := m; gainValue := gainValue t |}.

Definition set_gainValue (g : Q) (t : AudioBooster) : AudioBooster :=
  {| audioContext := audioContext t; mediaElements := mediaElements t; gainValue := g |}.

Definition set_gain (g : Q) (n : GainNode) : GainNode :=
  {| gainId := gainId n; gain := {| value := g |} |}.

Definition set_chain_gain (g : Q) (c : Chain) : Chain :=
  {| source := source c; gainNode := set_gain g (gainNode c); compressor := compressor c |}.

(** ** Host operations *)

(** [new AudioContext()]: a fresh instance, suspended unless the autoplay
    policy already allows audio. *)
Definition new_AudioContext (b : Browser) : AudioContext * Browser :=
  ({| ctxId := contextsCreated b;
      state := if autoplayAllowed b then running else suspended;
      resumeCalls := 0;
      nodesCreated := 0;
      connections := [] |},
   {| autoplayAllowed := autoplayAllowed b;
      contextsCreated := S (contextsCreated b);
      captured := captured b;
      console := console b |}).

Definition alloc_node (c : AudioContext) : nat * AudioContext :=
  (S (nodesCreated c),
   {| ctxId := ctxId c; state := state c; resumeCalls := resumeCalls c;
      nodesCreated := S (nodesCreated c); connections := connections c |}).

Definition connect (from to : nat) (c : AudioContext) : AudioContext :=
  {| ctxId := ctxId c; state := state c; resumeCalls := resumeCalls c;
     nodesCreated := nodesCreated c; connections := connections c ++ [(from, to)] |}.

(** [context.resume()]: the request is recorded; the state changes when
    the browser settles it. *)
Definition resume (c : AudioContext) : AudioContext :=
  {| ctxId := ctxId c; state := state c; resumeCalls := S (resumeCalls c);
     nodesCreated := nodesCreated c; connections := connections c |}.

Definition InvalidStateError : DOMException :=
  {| errorName := "InvalidStateError";
     message := "HTMLMediaElement already connected previously to a different MediaElementSourceNode." |}.

(** [context.createMediaElementSource(element)]: throws when the element
    is already captured; otherwise captures it. *)
Definition createMediaElementSource (element : Element) (c : AudioContext) (b : Browser)
  : Completion (MediaElementAudioSourceNode * AudioContext * Browser) :=
  if decide (element ∈ captured b) then Throw InvalidStateError
  else
    let '(id, c') := alloc_node c in
    Normal ({| sourceId := id; mediaElement := element |}, c',
            {| autoplayAllowed := autoplayAllowed b;
               contextsCreated := contextsCreated b;
               captured := {[element]} ∪ captured b;
               console := console b |}).

(** [context.createGain()]: unity gain by default. *)
Definition createGain (c : AudioContext) : GainNode * AudioContext :=
  let '(id, c') := alloc_node c in
  ({| gainId := id; gain := {| value := 1 |} |}, c').

(** [context.createDynamicsCompressor()] with the Web Audio defaults. *)
Definition createDynamicsCompressor (c : AudioContext) : DynamicsCompressorNode * AudioContext :=
  let '(id, c') := alloc_node c in
  ({| compressorId := id;
      threshold := {| value := -24 |};
      knee := {| value := 30 |};
      ratio := {| value := 12 |};
      attack := {| value := 0.003 |};
      release := {| value := 0.25 |} |}, c').

Definition console_debug (text detail : string) (b : Browser) : Browser :=
  {| autoplayAllowed := autoplayAllowed b;
     contextsCreated := contextsCreated b;
     captured := captured b;
     console := console b ++ [(text, detail)] |}.

(** ** The methods of [AudioBooster] *)

(** [array.forEach(x => f(x))] with the world threaded through. *)
Definition forEach {A S : Type} (f : A -> S -> S) (l : list A) (s : S) : S :=
  fold_left (fun acc x => f x acc) l s.

(** [map.has(key)] *)
Definition has (element : Element) (m : gmap Element Chain) : bool :=
  bool_decide (is_Some (m !! element)).

(** [getAudioContext()]: the lazily created shared context and the world
    after the call. *)
Definition getAudioContext (w : World) : AudioContext * World :=
  match audioContext (this w) with
  | Some c => (c, w)
  | None =>
      let '(c, b) := new_AudioContext (browser w) in
      (c, {| this := set_audioContext (Some c) (this w); browser := b |})
  end.

(** The compressor settings assigned by [processMediaElement]. *)
Definition tune (n : DynamicsCompressorNode) : DynamicsCompressorNode :=
  {| compressorId := compressorId n;
     threshold := {| value := -6 |};
     knee := {| value := 30 |};
     ratio := {| value := 12 |};
     attack := {| value := 0.003 |};
     release := {| value := 0.25 |} |}.

(** The body of the [try] block of [processMediaElement].  [context] is
    the object [this.audioContext] refers to, so the nodes created on it
    and their connections are visible through that field.  The only
    statement that can throw is the first one, before anything is
    written. *)
Definition processMediaElement_try (element : Element) (context : AudioContext) (w : World)
  : Completion World :=
  match createMediaElementSource element context (browser w) with
  | Throw error => Throw error
  | Normal (source0, c1, b1) =>
      let '(gainNode0, c2) := createGain c1 in
      let '(compressor0, c3) := createDynamicsCompressor c2 in
      let compressor1 := tune compressor0 in
      let gainNode1 := set_gain (gainValue (this w)) gainNode0 in
      let c4 := connect (sourceId source0) (gainId gainNode1) c3 in
      let c5 := connect (gainId gainNode1) (compressorId compressor1) c4 in
      let c6 := connect (compressorId compressor1) destination c5 in
      Normal
        {| this :=
             {| audioContext := Some c6;
                mediaElements :=
                  <[element := {| source := source0; gainNode := gainNode1;
                                  compressor := compressor1 |}]> (mediaElements (this w));
                gainValue := gainValue (this w) |};
           browser := b1 |}
  end.

Definition processMediaElement (element : Element) (w : World) : World :=
  if has element (mediaElements (this w)) then w
  else
    let '(context, w1) := getAudioContext w in
    match processMediaElement_try element context w1 with
    | Normal w2 => w2
    | Throw error =>
        {| this := this w1;
           browser := console_debug "AudioBooster: Could not process element"
                        (message error) (browser w1) |}
    end.

Definition processExistingMedia (document : list Node) (w : World) : World :=
  forEach processMediaElement (document_querySelectorAll document) w.

(** The element object a node is, when it is one. *)
Definition asElement (n : Node) : option Element :=
  match n with
  | ElementNode id _ _ => Some id
  | _ => None
  end.

(** The body of [mutation.addedNodes.forEach(node => ...)]. *)
Definition onAddedNode (node : Node) (w : World) : World :=
  let w1 :=
    if isMediaName (nodeName node) then
      match asElement node with
      | Some element => processMediaElement element w
      | None => w
      end
    else w in
  match querySelectorAll node with
  | Some found => forEach processMediaElement found w1
  | None => w1
  end.

(** The callback [observeNewMedia] hands to the [MutationObserver]. *)
Definition observerCallback (mutations : list MutationRecord) (w : World) : World :=
  forEach (fun mutation => forEach onAddedNode (addedNodes mutation)) mutations w.

Definition setGain (value : Q) (w : World) : World :=
  let t1 := set_gainValue value (this w) in
  let t2 :=
    match audioContext t1 with
    | Some c =>
        match state c with
        | suspended => set_audioContext (Some (resume c)) t1
        | _ => t1
        end
    | None => t1
    end in
  {| this := set_mediaElements (set_chain_gain value <$> mediaElements t2) t2;
     browser := browser w |}.

Definition getMediaCount (w : World) : nat := size (mediaElements (this w)).

(** ** The message listener *)

(** A message as the listener reads it: its [type] and its [value]
    (only read when the type is [SET_GAIN]). *)
Record Message := { type : string; messageValue : Q }.

(** The objects passed to [sendResponse]. *)
Inductive Response :=
| SetGainResponse (success : bool) (mediaCount : nat)
| StatusResponse (gainReported : Q) (mediaCount : nat).

(** What one run of the listener does to the channel: the responses it
    sent, in order, and the value it returned ([true] keeps the channel
    open for a later response). *)
Record Reply := { responses : list Response; returned : bool }.

(** The listener installed by [setupMessageListener]. *)
Definition onMessage (m : Message) (w : World) : World * Reply :=
  if bool_decide (type m = "SET_GAIN") then
    let w1 := setGain (messageValue m) w in
    (w1, {| responses := [SetGainResponse true (getMediaCount w1)]; returned := true |})
  else if bool_decide (type m = "GET_STATUS") then
    (w, {| responses := [StatusResponse (gainValue (this w)) (getMediaCount w)];
           returned := true |})
  else
    (w, {| responses := []; returned := true |}).

(** ** The life of a page *)

(** [new AudioBooster()]: the fields' initial values, then [init()].
    [observeNewMedia] and [setupMessageListener] only install
    [observerCallback] and [onMessage]; they run when the browser
    delivers an event. *)
Definition init (document : list Node) (w : World) : World :=
  processExistingMedia document w.

Definition constructor (document : list Node) (b : Browser) : World :=
  init document
    {| this := {| audioContext := None; mediaElements := ∅; gainValue := 1 |};
       browser := b |}.

(** The browser at page load, before the content script ran: no context
    of the booster exists; the page may already own some elements. *)
Definition pageLoad (autoplay : bool) (owned : gset Element) : Browser :=
  {| autoplayAllowed := autoplay; contextsCreated := 0; captured := owned; console := [] |}.

(** What can happen after the constructor returned: the observer fires,
    a message arrives, the browser settles pending [resume()] requests,
    or the page routes one of its elements into a graph of its own. *)
Inductive Event :=
| Mutations (mutations : list MutationRecord)
| Request (m : Message)
| ResumeSettled
| PageCaptures (element : Element).

Definition settle (c : AudioContext) : AudioContext :=
  match resumeCalls c, state c with
  | S _, suspended =>
      {| ctxId := ctxId c; state := running; resumeCalls := resumeCalls c;
         nodesCreated := nodesCreated c; connections := connections c |}
  | _, _ => c
  end.

Definition step (ev : Event) (w : World) : World :=
  match ev with
  | Mutations mutations => observerCallback mutations w
  | Request m => fst (onMessage m w)
  | ResumeSettled =>
      {| this := set_audioContext (settle <$> audioContext (this w)) (this w);
         browser := browser w |}
  | PageCaptures element =>
      {| this := this w;
         browser := {| autoplayAllowed := autoplayAllowed (browser w);
                       contextsCreated := contextsCreated (browser w);
                       captured := {[element]} ∪ captured (browser w);
                       console := console (browser w) |} |}
  end.

Definition run (events : list Event) (w : World) : World := forEach step events w.

(** Is the event a [SET_GAIN] request? *)
Definition isSetGain (ev : Event) : bool :=
  match ev with
  | Request m => bool_decide (type m = "SET_GAIN")
  | _ => false
  end.

(** The booster's field and the browser's count of constructed contexts
    agree: no context and none constructed, or the first and only one. *)
Definition oneContext (w : World) : Prop :=
  match audioContext (this w) with
  | None => contextsCreated (browser w) = 0
  | Some c => contextsCreated (browser w) = 1 /\ ctxId c = 0
  end.

(** An element is settled once it is registered or captured: no later
    call changes whether it is registered. *)
Definition settled (element : Element) (w : World) : Prop :=
  has element (mediaElements (this w)) = true \/ element ∈ captured (browser w).

(** ** Sample pages *)

(** A page without media whose element [1] is already routed into a
    graph of the page's own. *)
Definition ownedPage : World := constructor [] (pageLoad false {[1%positive]}).

(** A page without media. *)
Definition emptyPage : World := constructor [] (pageLoad false ∅).

(** A document with two [<video>] elements. *)
Definition twoVideos : list Node :=
  [ElementNode 1%positive "HTML"
     [ElementNode 2%positive "BODY"
        [ElementNode 3%positive "VIDEO" []; TextNode "caption"; ElementNode 4%positive "VIDEO" []]]].

(** A player widget with three [<audio>] elements at different depths. *)
Definition widget : Node :=
  ElementNode 10%positive "DIV"
    [ElementNode 11%positive "AUDIO" [];
     ElementNode 12%positive "DIV" [ElementNode 13%positive "AUDIO" []; TextNode "track"];
     ElementNode 14%positive "AUDIO" []].

(** [element] is a media element of the subtree rooted at [n]: [n] itself
    or one of its descendants is that element and is named [AUDIO] or
    [VIDEO]. *)
Definition mediaIn (element : Element) (n : Node) : Prop :=
  exists d name children,
    (d = n \/ Descendant d n)
    /\ d = ElementNode element name children
    /\ isMediaName name = true.

(** The limiter settings every chain is given. *)
Definition tuned (n : DynamicsCompressorNode) : Prop :=
  value (threshold n) = (-6)%Q
  /\ value (knee n) = 30%Q
  /\ value (ratio n) = 12%Q
  /\ value (attack n) = 0.003%Q
  /\ value (release n) = 0.25%Q.



(** ** The popup, as far as it talks to the content script *)

(** The popup's [status] element: its text and its class list. *)
Record StatusElement := { textContent : string; classList : list string }.

(** [classList.add(token)]: a token that is present is not added again. *)
Definition classList_add (token : string) (l : list string) : list string :=
  if bool_decide (token ∈ l) then l else l ++ [token].

(** [classList.remove(token)] *)
Definition classList_remove (token : string) (l : list string) : list string :=
  filter (fun t => t <> token) l.

(** [updateStatus(mediaCount)] of the popup. *)
Definition updateStatus (mediaCount : nat) (status : StatusElement) : StatusElement :=
  if bool_decide (0 < mediaCount) then
    {| textContent :=
         "Found " +:+ pretty mediaCount +:+ " media element"
           +:+ (if bool_decide (1 < mediaCount) then "s" else "");
       classList := classList_add "found" (classList status) |}
  else
    {| textContent := "No media elements found";
       classList := classList_remove "found" (classList status) |}.

(** [response.mediaCount] *)
Definition mediaCountOf (r : Response) : nat :=
  match r with
  | SetGainResponse _ mediaCount => mediaCount
  | StatusResponse _ mediaCount => mediaCount
  end.

(** How the promise of [chrome.tabs.sendMessage] settles: with the
    response, with [undefined] when the channel closed unanswered, by
    rejection when the tab has no listener, or never. *)
Inductive Settlement :=
| Fulfilled (response : option Response)
| Rejected
| Pending.

(** [chrome.tabs.sendMessage(tab.id, message)] to a tab whose content
    script, when it runs there, is in the world [tab]. *)
Definition tabs_sendMessage (tab : option World) (m : Message)
  : Settlement * option World :=
  match tab with
  | None => (Rejected, None)
  | Some w =>
      let '(w', reply) := onMessage m w in
      (match responses reply with
       | response :: _ => Fulfilled (Some response)
       | [] => if returned reply then Pending else Fulfilled None
       end, Some w')
  end.

(** The [try] / [catch] around the request in the popup's [getStatus]
    and [setGain]: the count of the response is shown; a rejection, or a
    response without a count, shows [failure]; while the promise is
    pending the status stays as it is. *)
Definition showOutcome (failure : string) (outcome : Settlement) (status : StatusElement)
  : StatusElement :=
  match outcome with
  | Fulfilled (Some response) => updateStatus (mediaCountOf response) status
  | Fulfilled None | Rejected =>
      {| textContent := failure;
         classList := classList_remove "found" (classList status) |}
  | Pending => status
  end.

(** The popup's [getStatus()]. *)
Definition popup_getStatus (tab : option World) (status : StatusElement)
  : StatusElement * option World :=
  let '(outcome, tab') :=
    tabs_sendMessage tab {| type := "GET_STATUS"; messageValue := 0 |} in
  (showOutcome "Content script not loaded" outcome status, tab').


(** ** The listener with the value as it arrives

    [message.value] is whatever the sender put there.  [setGain] stores
    it as it is and assigns it to [gain.value], an attribute of type
    [float]: the assignment converts the value to a number and throws a
    [TypeError] unless that number is finite and rounds to a finite
    single.  The methods below are the ones above with that conversion
    in place; chains keep holding the number that was accepted. *)
Module Wire.

(** A JavaScript number. *)
Inductive Number :=
| Finite (q : Q)
| NaN
| Infinity (negative : bool).

(** A JavaScript value, as far as the booster can tell values apart:
    it never looks into one, it only converts it to a number.  A string
    or an object is given with the number it converts to. *)
Inductive Value :=
| Undefined
| Null
| Boolean (b : bool)
| Num (n : Number)
| Other (converted : Number).

Definition ToNumber (v : Value) : Number :=
  match v with
  | Undefined => NaN
  | Null => Finite 0
  | Boolean b => Finite (if b then 1 else 0)
  | Num n => n
  | Other converted => converted
  end.

(** Half way between the largest finite single and [2^128]: numbers of
    this magnitude or more do not round to a finite single. *)
Definition floatLimit : Q := inject_Z (2 ^ 128 - 2 ^ 103).

(** The conversion to [float]; [None] is the [TypeError]. *)
Definition toFloat (n : Number) : option Q :=
  match n with
  | Finite q => if Qle_bool floatLimit (Qabs q) then None else Some q
  | _ => None
  end.

Definition TypeError : DOMException :=
  {| errorName := "TypeError";
     message := "Failed to set the 'value' property on 'AudioParam': The provided float value is non-finite." |}.

(** [gainNode.gain.value = v] on the gain node of a chain. *)
Definition assign_gain (v : Value) (chain : Chain) : Completion Chain :=
  match toFloat (ToNumber v) with
  | Some q => Normal (set_chain_gain q chain)
  | None => Throw TypeError
  end.

(** [map.forEach(chain => ...)] with a body that can throw: the entries
    are visited in turn and the first throw ends the loop, leaving the
    entries visited so far updated.  (The order of the visit plays no
    role for [setGain]: whether its body throws depends on the value
    alone.) *)
Fixpoint forEachChain (f : Chain -> Completion Chain)
         (entries : list (Element * Chain)) (m : gmap Element Chain)
  : gmap Element Chain * Completion unit :=
  match entries with
  | [] => (m, Normal tt)
  | (element, chain) :: rest =>
      match f chain with
      | Normal chain' => forEachChain f rest (<[element := chain']> m)
      | Throw error => (m, Throw error)
      end
  end.

Record AudioBooster := {
  audioContext : option AudioContext;
  mediaElements : gmap Element Chain;
  gainValue : Value
}.

Record World := { this : AudioBooster; browser : Browser }.

(** [setGain(value)]: the world it leaves and how it completed. *)
Definition setGain (v : Value) (w : World) : World * Completion unit :=
  let context :=
    match audioContext (this w) with
    | Some c =>
        match state c with
        | suspended => Some (resume c)
        | _ => Some c
        end
    | None => None
    end in
  let '(m, completion) :=
    forEachChain (assign_gain v) (map_to_list (mediaElements (this w)))
      (mediaElements (this w)) in
  ({| this := {| audioContext := context; mediaElements := m; gainValue := v |};
      browser := browser w |}, completion).

Definition getMediaCount (w : World) : nat := size (mediaElements (this w)).

Record Message := { type : string; value : Value }.

Inductive Response :=
| SetGainResponse (success : bool) (mediaCount : nat)
| StatusResponse (gainReported : Value) (mediaCount : nat).

(** The responses sent, and how the listener completed: by returning a
    value or by the exception that left it. *)
Record Reply := { responses : list Response; completion : Completion bool }.

Definition onMessage (m : Message) (w : World) : World * Reply :=
  if bool_decide (type m = "SET_GAIN") then
    let '(w1, completed) := setGain (value m) w in
    match completed with
    | Normal _ =>
        (w1, {| responses := [SetGainResponse true (getMediaCount w1)];
                completion := Normal true |})
    | Throw error => (w1, {| responses := []; completion := Throw error |})
    end
  else if bool_decide (type m = "GET_STATUS") then
    (w, {| responses := [StatusResponse (gainValue (this w)) (getMediaCount w)];
           completion := Normal true |})
  else
    (w, {| responses := []; completion := Normal true |}).

End Wire.

(** A world whose gain state is a number, seen with values as they
    arrive. *)
Definition onWire (w : World) : Wire.World :=
  {| Wire.this :=
       {| Wire.audioContext := audioContext (this w);
          Wire.mediaElements := mediaElements (this w);
          Wire.gainValue := Wire.Num (Wire.Finite (gainValue (this w))) |};
     Wire.browser := browser w |}.

(** * Properties *)

(** ** Gain control *)

Lemma set_chain_gain_value (g : Q) (c : Chain) :
  value (gain (gainNode (set_chain_gain g c))) = g.
Proof. reflexivity. Qed.

Lemma setGain_mediaElements (g : Q) (w : World) :
  mediaElements (this (setGain g w)) = set_chain_gain g <$> mediaElements (this w).
Proof.
  unfold setGain. destruct w as [[ctx reg gv] b]; simpl.
  destruct ctx as [c|]; [destruct (state c)|]; reflexivity.
Qed.

Lemma setGain_gainValue (g : Q) (w : World) : gainValue (this (setGain g w)) = g.
Proof.
  unfold setGain. destruct w as [[ctx reg gv] b]; simpl.
  destruct ctx as [c|]; [destruct (state c)|]; reflexivity.
Qed.

Lemma setGain_browser (g : Q) (w : World) : browser (setGain g w) = browser w.
Proof. reflexivity. Qed.

Lemma setGain_audioContext (g : Q) (w : World) :
  audioContext (this (setGain g w)) =
  match audioContext (this w) with
  | Some c => Some (match state c with suspended => resume c | _ => c end)
  | None => None
  end.
Proof.
  unfold setGain. destruct w as [[ctx reg gv] b]; simpl.
  destruct ctx as [c|]; [destruct (state c)|]; reflexivity.
Qed.


Lemma setGain_lookup (g : Q) (w : World) (element : Element) :
  mediaElements (this (setGain g w)) !! element =
  set_chain_gain g <$> (mediaElements (this w) !! element).
Proof. rewrite setGain_mediaElements. apply lookup_fmap. Qed.




(** ** The control surface *)

Lemma onMessage_SET_GAIN (v : Q) (w : World) :
  onMessage {| type := "SET_GAIN"; messageValue := v |} w =
  (setGain v w,
   {| responses := [SetGainResponse true (getMediaCount (setGain v w))];
      returned := true |}).
Proof. reflexivity. Qed.

Lemma onMessage_other (m : Message) (w : World) :
  type m <> "SET_GAIN" -> type m <> "GET_STATUS" ->
  onMessage m w = (w, {| responses := []; returned := true |}).
Proof.
  intros H1 H2. unfold onMessage.
  rewrite !bool_decide_eq_false_2 by assumption. reflexivity.
Qed.

(** How many times the listener calls [sendResponse]: once on each of
    the two branches it has, never otherwise. *)
Lemma onMessage_response_count (m : Message) (w : World) :
  length (responses (snd (onMessage m w)))
  = if bool_decide (type m = "SET_GAIN") || bool_decide (type m = "GET_STATUS")
    then 1 else 0.
Proof.
  unfold onMessage.
  destruct (bool_decide (type m = "SET_GAIN")); [reflexivity|].
  destruct (bool_decide (type m = "GET_STATUS")); reflexivity.
Qed.

(** C8. A [GET_STATUS] request is answered with the current gain state
    and the current registry count, and the world after the request is
    the world before it: gain state, registry, every chain, the shared
    context and the browser are untouched. *)
Theorem GET_STATUS_reports_without_mutation (v : Q) (w : World) :
  onMessage {| type := "GET_STATUS"; messageValue := v |} w =
  (w, {| responses := [StatusResponse (gainValue (this w))
                         (size (mediaElements (this w)))];
         returned := true |}).
Proof. reflexivity. Qed.

(** A [SET_GAIN] request that carries the number [v]: the world after it
    is the one [setGain] leaves, and the single response carries the size
    of the registry, which the update leaves as it was. *)
Lemma onMessage_SET_GAIN_size (v : Q) (w : World) :
  onMessage {| type := "SET_GAIN"; messageValue := v |} w
  = (setGain v w,
     {| responses := [SetGainResponse true (size (mediaElements (this w)))];
        returned := true |}).
Proof.
  rewrite onMessage_SET_GAIN. unfold getMediaCount.
  rewrite setGain_mediaElements, map_size_fmap. reflexivity.
Qed.

(** C4. The listener sends nothing for a message whose type it does not
    know, and still returns [true], which keeps the channel open for a
    response that never comes. *)
Theorem unrecognized_request_is_never_answered (w : World) :
  onMessage {| type := "PING"; messageValue := 0 |} w =
  (w, {| responses := []; returned := true |}).
Proof. reflexivity. Qed.

(** ** Building a chain *)

Lemma has_true (element : Element) (m : gmap Element Chain) :
  has element m = true <-> is_Some (m !! element).
Proof. unfold has. apply bool_decide_eq_true. Qed.

Lemma has_false (element : Element) (m : gmap Element Chain) :
  has element m = false <-> m !! element = None.
Proof.
  unfold has. rewrite bool_decide_eq_false, eq_None_not_Some. reflexivity.
Qed.

Lemma getAudioContext_audioContext (w : World) :
  audioContext (this (snd (getAudioContext w))) = Some (fst (getAudioContext w)).
Proof.
  unfold getAudioContext. destruct (audioContext (this w)) eqn:E; simpl; auto.
Qed.

Lemma getAudioContext_existing (w : World) (c : AudioContext) :
  audioContext (this w) = Some c -> getAudioContext w = (c, w).
Proof. unfold getAudioContext. intros ->. reflexivity. Qed.

Lemma getAudioContext_frame (w : World) :
  let w1 := snd (getAudioContext w) in
  mediaElements (this w1) = mediaElements (this w)
  /\ gainValue (this w1) = gainValue (this w)
  /\ captured (browser w1) = captured (browser w)
  /\ console (browser w1) = console (browser w)
  /\ autoplayAllowed (browser w1) = autoplayAllowed (browser w).
Proof.
  unfold getAudioContext. destruct (audioContext (this w)); simpl; auto.
Qed.

(** Once created, the context is what every later access returns, and no
    further instance is constructed. *)
Lemma getAudioContext_again (w : World) :
  getAudioContext (snd (getAudioContext w)) = getAudioContext w.
Proof.
  unfold getAudioContext at 2 3.
  destruct (audioContext (this w)) eqn:E; simpl.
  - apply getAudioContext_existing; assumption.
  - reflexivity.
Qed.

(** An element that is already registered: nothing happens. *)
Lemma processMediaElement_registered (element : Element) (w : World) :
  has element (mediaElements (this w)) = true -> processMediaElement element w = w.
Proof. unfold processMediaElement. intros ->. reflexivity. Qed.

(** An element that cannot be bound: the context is obtained (and created
    if need be), the throw is caught, one line goes to the console. *)
Lemma processMediaElement_unbindable (element : Element) (w : World) :
  has element (mediaElements (this w)) = false ->
  element ∈ captured (browser w) ->
  processMediaElement element w =
  {| this := this (snd (getAudioContext w));
     browser := console_debug "AudioBooster: Could not process element"
                  (message InvalidStateError) (browser (snd (getAudioContext w))) |}.
Proof.
  intros Hhas Hcap. unfold processMediaElement. rewrite Hhas.
  destruct (getAudioContext w) as [context w1] eqn:E. simpl.
  assert (Hc : captured (browser w1) = captured (browser w)).
  { pose proof (getAudioContext_frame w) as H. rewrite E in H. simpl in H. tauto. }
  unfold processMediaElement_try, createMediaElementSource.
  rewrite decide_True by (rewrite Hc; assumption). reflexivity.
Qed.

(** An element that can be bound: its chain is registered, with the
    current gain state as its gain and the limiter settings of the
    source; the context keeps its identity. *)
Lemma processMediaElement_bindable (element : Element) (w : World) :
  has element (mediaElements (this w)) = false ->
  element ∉ captured (browser w) ->
  let context := fst (getAudioContext w) in
  let w1 := snd (getAudioContext w) in
  let w' := processMediaElement element w in
  (exists chain,
      mediaElements (this w') = <[element := chain]> (mediaElements (this w))
      /\ value (gain (gainNode chain)) = gainValue (this w)
      /\ mediaElement (source chain) = element
      /\ compressor chain = tune (compressor chain))
  /\ gainValue (this w') = gainValue (this w)
  /\ captured (browser w') = {[element]} ∪ captured (browser w)
  /\ console (browser w') = console (browser w)
  /\ autoplayAllowed (browser w') = autoplayAllowed (browser w)
  /\ contextsCreated (browser w') = contextsCreated (browser w1)
  /\ exists c', audioContext (this w') = Some c'
       /\ ctxId c' = ctxId context
       /\ state c' = state context
       /\ resumeCalls c' = resumeCalls context.
Proof.
  intros Hhas Hcap. cbv zeta. unfold processMediaElement. rewrite Hhas.
  pose proof (getAudioContext_frame w) as H.
  destruct (getAudioContext w) as [context w1] eqn:E. simpl in H |- *.
  destruct H as (Hm & Hg & Hc & Hl & Ha).
  unfold processMediaElement_try, createMediaElementSource.
  rewrite decide_False by (rewrite Hc; assumption). simpl.
  rewrite Hm, Hg, Hc, Hl, Ha. repeat split; eauto.
Qed.

(** The three ways a call can go. *)
Lemma processMediaElement_cases (element : Element) (w : World) :
  has element (mediaElements (this w)) = true
  \/ (has element (mediaElements (this w)) = false /\ element ∈ captured (browser w))
  \/ (has element (mediaElements (this w)) = false /\ element ∉ captured (browser w)).
Proof.
  destruct (has element (mediaElements (this w))); [auto|].
  destruct (decide (element ∈ captured (browser w))); auto.
Qed.

Ltac process_cases element w :=
  let Hhas := fresh "Hhas" in
  let Hcap := fresh "Hcap" in
  destruct (processMediaElement_cases element w) as [Hhas|[[Hhas Hcap]|[Hhas Hcap]]];
  [ rewrite (processMediaElement_registered element w Hhas)
  | rewrite (processMediaElement_unbindable element w Hhas Hcap)
  | let Hb := fresh "Hbuilt" in
    pose proof (processMediaElement_bindable element w Hhas Hcap) as Hb;
    cbv zeta in Hb ].


Lemma processMediaElement_unbindable_frame (element : Element) (w : World) :
  has element (mediaElements (this w)) = false ->
  element ∈ captured (browser w) ->
  mediaElements (this (processMediaElement element w)) = mediaElements (this w)
  /\ captured (browser (processMediaElement element w)) = captured (browser w).
Proof.
  intros Hhas Hcap. rewrite processMediaElement_unbindable by assumption.
  simpl. split; apply (getAudioContext_frame w).
Qed.



Lemma processMediaElement_has (element : Element) (w : World) :
  has element (mediaElements (this (processMediaElement element w)))
  = has element (mediaElements (this w)) || bool_decide (element ∉ captured (browser w)).
Proof.
  process_cases element w.
  - rewrite Hhas. reflexivity.
  - simpl. replace (mediaElements (this (snd (getAudioContext w))))
      with (mediaElements (this w)) by (symmetry; apply (getAudioContext_frame w)).
    rewrite Hhas. simpl. symmetry. apply bool_decide_eq_false. auto.
  - destruct Hbuilt as ((chain & -> & _) & _).
    rewrite Hhas. simpl. rewrite bool_decide_eq_true_2 by assumption.
    apply has_true. rewrite lookup_insert_eq. eauto.
Qed.


Lemma processMediaElement_lookup_other (element other : Element) (w : World) :
  other <> element ->
  mediaElements (this (processMediaElement element w)) !! other
  = mediaElements (this w) !! other.
Proof.
  intros Hne. process_cases element w.
  - reflexivity.
  - simpl. f_equal. apply (getAudioContext_frame w).
  - destruct Hbuilt as ((chain & -> & _) & _).
    apply lookup_insert_ne. congruence.
Qed.


(** C5, as the code has it.  When the element cannot be bound, the
    registry, the gain state, the set of captured elements and the
    autoplay policy are as before and the call returns normally; what
    does change is that the shared context now exists (it is the one that
    was there, untouched, when there was one) and that the console got
    one debug line. *)
Theorem failed_build_leaves_registry_alone (element : Element) (w : World) :
  has element (mediaElements (this w)) = false ->
  element ∈ captured (browser w) ->
  let w' := processMediaElement element w in
  mediaElements (this w') = mediaElements (this w)
  /\ gainValue (this w') = gainValue (this w)
  /\ captured (browser w') = captured (browser w)
  /\ autoplayAllowed (browser w') = autoplayAllowed (browser w)
  /\ audioContext (this w') = Some (fst (getAudioContext w))
  /\ (forall c, audioContext (this w) = Some c ->
        audioContext (this w') = Some c
        /\ contextsCreated (browser w') = contextsCreated (browser w))
  /\ console (browser w')
     = console (browser w)
       ++ [("AudioBooster: Could not process element", message InvalidStateError)].
Proof.
  intros Hhas Hcap. cbv zeta.
  rewrite processMediaElement_unbindable by assumption. simpl.
  destruct (getAudioContext_frame w) as (Hm & Hg & Hc & Hl & Ha).
  repeat split; try assumption.
  - apply getAudioContext_audioContext.
  - rewrite (getAudioContext_existing w c); [assumption|assumption].
  - rewrite (getAudioContext_existing w c); [reflexivity|assumption].
  - rewrite Hl. reflexivity.
Qed.


(** C5, as stated, fails: on [ownedPage] no context exists; the failed
    build of element [1] constructs one and stores it in the booster, so
    the world after the call is not the world before it. *)
Lemma failed_build_creates_the_context :
  has 1%positive (mediaElements (this ownedPage)) = false
  /\ 1%positive ∈ captured (browser ownedPage)
  /\ audioContext (this ownedPage) = None
  /\ contextsCreated (browser ownedPage) = 0
  /\ audioContext (this (processMediaElement 1%positive ownedPage))
     = Some {| ctxId := 0; state := suspended; resumeCalls := 0;
               nodesCreated := 0; connections := [] |}
  /\ contextsCreated (browser (processMediaElement 1%positive ownedPage)) = 1
  /\ processMediaElement 1%positive ownedPage <> ownedPage.
Proof.
  repeat split; try (vm_compute; reflexivity).
  intros H. apply (f_equal (fun w => contextsCreated (browser w))) in H.
  vm_compute in H. discriminate.
Qed.

(** The failed build of element [1] on [ownedPage]. *)
Lemma failed_build_leaves_registry_alone_witness :
  has 1%positive (mediaElements (this ownedPage)) = false
  /\ 1%positive ∈ captured (browser ownedPage)
  /\ mediaElements (this (processMediaElement 1%positive ownedPage))
     = mediaElements (this ownedPage).
Proof.
  assert (H1 : has 1%positive (mediaElements (this ownedPage)) = false)
    by (vm_compute; reflexivity).
  assert (H2 : 1%positive ∈ captured (browser ownedPage))
    by (vm_compute; reflexivity).
  split; [exact H1|]. split; [exact H2|].
  exact (proj1 (failed_build_leaves_registry_alone 1%positive ownedPage H1 H2)).
Defined.

(** ** Iteration *)

Lemma forEach_cons {A S : Type} (f : A -> S -> S) (x : A) (l : list A) (s : S) :
  forEach f (x :: l) s = forEach f l (f x s).
Proof. reflexivity. Qed.

Lemma forEach_app {A S : Type} (f : A -> S -> S) (l1 l2 : list A) (s : S) :
  forEach f (l1 ++ l2) s = forEach f l2 (forEach f l1 s).
Proof. unfold forEach. apply fold_left_app. Qed.

Lemma forEach_flat_map {A B S : Type} (f : B -> S -> S) (g : A -> list B)
      (l : list A) (s : S) :
  forEach (fun x => forEach f (g x)) l s = forEach f (flat_map g l) s.
Proof.
  revert s. induction l as [|x l IH]; intros s; [reflexivity|].
  simpl flat_map. rewrite forEach_cons, forEach_app. apply IH.
Qed.

Lemma forEach_preserves {A S : Type} (P : S -> Prop) (f : A -> S -> S) (l : list A) :
  (forall x s, P s -> P (f x s)) -> forall s, P s -> P (forEach f l s).
Proof.
  intros Hstep. induction l as [|x l IH]; intros s Hs; [exact Hs|].
  rewrite forEach_cons. apply IH, Hstep, Hs.
Qed.

(** ** Discovery *)

Lemma onAddedNode_forEach (node : Node) (w : World) :
  onAddedNode node w = forEach processMediaElement (matchMedia node) w.
Proof.
  destruct node as [id name children| |]; try reflexivity.
  unfold onAddedNode. simpl. rewrite forEach_app.
  destruct (isMediaName name); reflexivity.
Qed.

(** All the elements the observer callback hands to
    [processMediaElement], in the order it does. *)
Lemma observerCallback_forEach (mutations : list MutationRecord) (w : World) :
  observerCallback mutations w
  = forEach processMediaElement
      (flat_map (fun mutation => flat_map matchMedia (addedNodes mutation)) mutations) w.
Proof.
  unfold observerCallback. rewrite <- forEach_flat_map.
  revert w. induction mutations as [|mutation mutations IH]; intros w; [reflexivity|].
  rewrite !forEach_cons, <- IH. f_equal.
  rewrite <- forEach_flat_map. generalize (addedNodes mutation) as nodes. intros nodes.
  revert w. clear IH. induction nodes as [|node nodes IHn]; intros w; [reflexivity|].
  rewrite !forEach_cons, IHn, onAddedNode_forEach. reflexivity.
Qed.

Lemma matchMedia_child (element : Element) (c n : Node) :
  In c (childNodes n) -> In element (matchMedia c) -> In element (matchMedia n).
Proof.
  destruct n as [id name children| |]; simpl; try tauto.
  intros Hc He. apply in_or_app. right. apply in_flat_map. eauto.
Qed.

Lemma matchMedia_descendant (element : Element) (d n : Node) :
  Descendant d n -> In element (matchMedia d) -> In element (matchMedia n).
Proof.
  induction 1 as [d n Hc | d c n Hc Hd IH]; intros He.
  - eapply matchMedia_child; eassumption.
  - eapply matchMedia_child; [eassumption|]. apply IH, He.
Qed.

Lemma matchMedia_self (element : Element) (name : string) (children : list Node) :
  isMediaName name = true -> In element (matchMedia (ElementNode element name children)).
Proof. intros H. simpl. rewrite H. left. reflexivity. Qed.

Lemma processMediaElement_captured_mono (x : Element) (w : World) :
  captured (browser w) ⊆ captured (browser (processMediaElement x w)).
Proof.
  process_cases x w.
  - reflexivity.
  - simpl. destruct (getAudioContext_frame w) as (_ & _ & -> & _). reflexivity.
  - destruct Hbuilt as (_ & _ & -> & _). set_solver.
Qed.

Lemma processMediaElement_captured_other (x element : Element) (w : World) :
  element <> x ->
  element ∈ captured (browser (processMediaElement x w)) <-> element ∈ captured (browser w).
Proof.
  intros Hne. process_cases x w.
  - reflexivity.
  - simpl. destruct (getAudioContext_frame w) as (_ & _ & -> & _). reflexivity.
  - destruct Hbuilt as (_ & _ & -> & _).
    rewrite elem_of_union, elem_of_singleton. tauto.
Qed.

Lemma processMediaElement_has_other (x element : Element) (w : World) :
  element <> x ->
  has element (mediaElements (this (processMediaElement x w)))
  = has element (mediaElements (this w)).
Proof.
  intros Hne. unfold has. rewrite processMediaElement_lookup_other by assumption.
  reflexivity.
Qed.

Lemma settled_after (element : Element) (w : World) :
  settled element (processMediaElement element w).
Proof.
  unfold settled. rewrite processMediaElement_has.
  destruct (has element (mediaElements (this w))); [auto|]. simpl.
  destruct (decide (element ∈ captured (browser w))) as [Hin|Hout].
  - right. apply processMediaElement_captured_mono, Hin.
  - left. apply bool_decide_eq_true_2, Hout.
Qed.

Lemma settled_step (x element : Element) (w : World) :
  settled element w ->
  settled element (processMediaElement x w)
  /\ has element (mediaElements (this (processMediaElement x w)))
     = has element (mediaElements (this w)).
Proof.
  intros Hs. destruct (decide (element = x)) as [->|Hne].
  - split; [apply settled_after|].
    rewrite processMediaElement_has. destruct Hs as [->|Hcap]; [reflexivity|].
    rewrite (bool_decide_eq_false_2 (x ∉ captured (browser w))) by auto.
    apply orb_false_r.
  - split; [|apply processMediaElement_has_other, Hne].
    destruct Hs as [Hh|Hcap]; [left|right].
    + rewrite processMediaElement_has_other; assumption.
    + apply processMediaElement_captured_mono, Hcap.
Qed.

Lemma settled_forEach (l : list Element) (element : Element) (w : World) :
  settled element w ->
  has element (mediaElements (this (forEach processMediaElement l w)))
  = has element (mediaElements (this w)).
Proof.
  revert w. induction l as [|x l IH]; intros w Hs; [reflexivity|].
  rewrite forEach_cons. destruct (settled_step x element w Hs) as [Hs' Hh].
  rewrite IH; assumption.
Qed.

(** Every element of the list ends up as one call on it would leave it:
    registered if it was registered or could be bound. *)
Lemma forEach_processMediaElement_has (l : list Element) (element : Element) (w : World) :
  In element l ->
  has element (mediaElements (this (forEach processMediaElement l w)))
  = has element (mediaElements (this w)) || bool_decide (element ∉ captured (browser w)).
Proof.
  revert w. induction l as [|x l IH]; intros w Hin; [destruct Hin|].
  rewrite forEach_cons. destruct (decide (element = x)) as [->|Hne].
  - rewrite settled_forEach by apply settled_after. apply processMediaElement_has.
  - destruct Hin as [Heq|Hin]; [congruence|].
    rewrite IH by assumption.
    rewrite processMediaElement_has_other by assumption. f_equal.
    apply bool_decide_ext. rewrite processMediaElement_captured_other by assumption.
    reflexivity.
Qed.


(** C9. A notified node without [querySelectorAll] is passed over: the
    run over the notified nodes goes on with the world it had, as if the
    node had not been in the list. *)
Theorem node_without_querySelectorAll_is_skipped
    (node : Node) (rest : list Node) (w : World) :
  querySelectorAll node = None ->
  onAddedNode node w = w
  /\ forEach onAddedNode (node :: rest) w = forEach onAddedNode rest w.
Proof.
  intros Hq. assert (H : onAddedNode node w = w).
  { destruct node as [id name children|data|data]; [discriminate| |]; reflexivity. }
  split; [exact H|]. rewrite forEach_cons, H. reflexivity.
Qed.

(** ** The gain state between two [SET_GAIN] requests *)





(** ** One shared context *)

Lemma oneContext_getAudioContext (w : World) :
  oneContext w -> oneContext (snd (getAudioContext w)).
Proof.
  unfold oneContext, getAudioContext.
  destruct (audioContext (this w)) as [c|] eqn:E; simpl.
  - rewrite E. auto.
  - intros ->. auto.
Qed.

Lemma oneContext_processMediaElement (element : Element) (w : World) :
  oneContext w -> oneContext (processMediaElement element w).
Proof.
  intros Hw. pose proof (oneContext_getAudioContext w Hw) as H1.
  pose proof (getAudioContext_audioContext w) as H2.
  unfold oneContext in H1. rewrite H2 in H1. destruct H1 as [Hn Hid].
  process_cases element w.
  - exact Hw.
  - unfold oneContext. simpl. rewrite H2. auto.
  - destruct Hbuilt as (_ & _ & _ & _ & _ & Hcount & c' & Hc' & Hid' & _).
    unfold oneContext. rewrite Hc', Hcount, Hid'. auto.
Qed.

Lemma oneContext_setGain (g : Q) (w : World) : oneContext w -> oneContext (setGain g w).
Proof.
  unfold oneContext. rewrite setGain_audioContext, setGain_browser.
  destruct (audioContext (this w)) as [c|]; [|auto].
  destruct (state c); auto.
Qed.

Lemma oneContext_step (ev : Event) (w : World) : oneContext w -> oneContext (step ev w).
Proof.
  intros Hw. destruct ev as [mutations|m| |element]; simpl.
  - rewrite observerCallback_forEach.
    apply (forEach_preserves oneContext); [|exact Hw].
    intros x s. apply oneContext_processMediaElement.
  - unfold onMessage. destruct (bool_decide (type m = "SET_GAIN")); simpl.
    + apply oneContext_setGain, Hw.
    + destruct (bool_decide (type m = "GET_STATUS")); exact Hw.
  - unfold oneContext in *. simpl.
    destruct (audioContext (this w)) as [c|]; simpl; [|exact Hw].
    unfold settle. destruct (resumeCalls c); [exact Hw|]. destruct (state c); exact Hw.
  - exact Hw.
Qed.

Lemma oneContext_constructor (document : list Node) (autoplay : bool) (owned : gset Element) :
  oneContext (constructor document (pageLoad autoplay owned)).
Proof.
  unfold constructor, init, processExistingMedia.
  apply (forEach_preserves oneContext); [|reflexivity].
  intros x s. apply oneContext_processMediaElement.
Qed.

Lemma oneContext_run (events : list Event) (w : World) :
  oneContext w -> oneContext (run events w).
Proof.
  unfold run. apply (forEach_preserves oneContext). intros ev s. apply oneContext_step.
Qed.

(** C7. Through the whole life of a page (the constructor on any
    document, then any events) the booster has constructed at most one
    [AudioContext]: none as long as its field is [null] (a page with no
    media gets none), exactly one afterwards, always the same instance.
    A second [getAudioContext()] returns the context of the first and
    constructs nothing.  [setGain] constructs nothing, leaves a missing
    context missing, and calls [resume()] on the existing instance when
    that is suspended, after which the browser can take it to running. *)
Theorem at_most_one_shared_context
    (autoplay : bool) (owned : gset Element) (document : list Node)
    (events : list Event) (g : Q) :
  let w := run events (constructor document (pageLoad autoplay owned)) in
  contextsCreated (browser w) <= 1
  /\ (audioContext (this w) = None <-> contextsCreated (browser w) = 0)
  /\ (forall c, audioContext (this w) = Some c -> ctxId c = 0)
  /\ audioContext (this (constructor [] (pageLoad autoplay owned))) = None
  /\ getAudioContext (snd (getAudioContext w)) = getAudioContext w
  /\ contextsCreated (browser (snd (getAudioContext w)))
     = match audioContext (this w) with
       | Some _ => contextsCreated (browser w)
       | None => 1
       end
  /\ contextsCreated (browser (setGain g w)) = contextsCreated (browser w)
  /\ (audioContext (this w) = None -> audioContext (this (setGain g w)) = None)
  /\ (forall c, audioContext (this w) = Some c ->
        audioContext (this (setGain g w))
        = Some (match state c with suspended => resume c | _ => c end))
  /\ (forall c, audioContext (this w) = Some c -> state c = suspended ->
        exists c',
          audioContext (this (step ResumeSettled (setGain g w))) = Some c'
          /\ ctxId c' = ctxId c /\ state c' = running).
Proof.
  intros w.
  assert (Hw : oneContext w) by apply oneContext_run, oneContext_constructor.
  pose proof (oneContext_getAudioContext w Hw) as Hw1.
  unfold oneContext in Hw, Hw1. rewrite getAudioContext_audioContext in Hw1.
  split; [destruct (audioContext (this w)); lia|].
  split; [destruct (audioContext (this w)); split; intros; (discriminate || lia || auto)|].
  split; [intros c Hc; rewrite Hc in Hw; tauto|].
  split; [reflexivity|].
  split; [apply getAudioContext_again|].
  split; [destruct (audioContext (this w)) as [c|] eqn:E;
          [rewrite (getAudioContext_existing w c E); reflexivity | tauto]|].
  split; [reflexivity|].
  split; [intros Hnone; rewrite setGain_audioContext, Hnone; reflexivity|].
  split; [intros c Hc; rewrite setGain_audioContext, Hc; reflexivity|].
  intros c Hc Hs. unfold step. cbn [this set_audioContext audioContext].
  rewrite setGain_audioContext, Hc, Hs. simpl.
  eexists. split; [reflexivity|]. unfold settle. simpl. rewrite Hs. auto.
Qed.

(** ** The scenarios of the specification, run on the sample pages *)

Example startup_scan_registers_both_videos :
  snd (onMessage {| type := "GET_STATUS"; messageValue := 0 |}
         (constructor twoVideos (pageLoad false ∅)))
  = {| responses := [StatusResponse 1 2]; returned := true |}.
Proof. vm_compute. reflexivity. Qed.

Example SET_GAIN_3_on_two_videos :
  let result := onMessage {| type := "SET_GAIN"; messageValue := 3 |}
                  (constructor twoVideos (pageLoad false ∅)) in
  snd result = {| responses := [SetGainResponse true 2]; returned := true |}
  /\ (value ∘ gain ∘ gainNode) <$> mediaElements (this (fst result)) !! 3%positive = Some 3%Q
  /\ (value ∘ gain ∘ gainNode) <$> mediaElements (this (fst result)) !! 4%positive = Some 3%Q.
Proof. repeat split; vm_compute; reflexivity. Qed.

Example widget_insertion_registers_three :
  getMediaCount (observerCallback [{| addedNodes := [widget] |}] emptyPage) = 3.
Proof. vm_compute. reflexivity. Qed.

Example SET_GAIN_while_suspended :
  let w := fst (onMessage {| type := "SET_GAIN"; messageValue := 2 |}
                  (constructor twoVideos (pageLoad false ∅))) in
  (state <$> audioContext (this (constructor twoVideos (pageLoad false ∅)))) = Some suspended
  /\ (resumeCalls <$> audioContext (this w)) = Some 1
  /\ (state <$> audioContext (this (step ResumeSettled w))) = Some running
  /\ (value ∘ gain ∘ gainNode) <$> mediaElements (this w) !! 3%positive = Some 2%Q.
Proof. repeat split; vm_compute; reflexivity. Qed.

Example SET_GAIN_accepts_zero_and_negative :
  gainValue (this (fst (onMessage {| type := "SET_GAIN"; messageValue := 0 |}
                          (constructor twoVideos (pageLoad false ∅))))) = 0%Q
  /\ (value ∘ gain ∘ gainNode)
       <$> mediaElements
             (this (fst (onMessage {| type := "SET_GAIN"; messageValue := -2 |}
                           (constructor twoVideos (pageLoad false ∅))))) !! 3%positive
     = Some (-2)%Q.
Proof. split; vm_compute; reflexivity. Qed.

(** ** Instances *)



(** A text node notified ahead of the widget. *)
Lemma node_without_querySelectorAll_is_skipped_witness :
  querySelectorAll (TextNode "hello") = None
  /\ forEach onAddedNode [TextNode "hello"; widget] emptyPage
     = forEach onAddedNode [widget] emptyPage.
Proof.
  assert (H : querySelectorAll (TextNode "hello") = None) by reflexivity.
  split; [exact H|].
  exact (proj2 (node_without_querySelectorAll_is_skipped
                  (TextNode "hello") [widget] emptyPage H)).
Defined.

(** * Further properties of the content script *)

(** ** Invariants of a page's life *)

(** What holds at page load and is kept by a discovery call, by
    [setGain] and by the browser's own steps holds ever after. *)
Lemma run_invariant (P : World -> Prop) :
  (forall element w, P w -> P (processMediaElement element w)) ->
  (forall g w, P w -> P (setGain g w)) ->
  (forall w, P w -> P (step ResumeSettled w)) ->
  (forall element w, P w -> P (step (PageCaptures element) w)) ->
  forall events w, P w -> P (run events w).
Proof.
  intros Hp Hg Hr Hc events. unfold run. apply forEach_preserves.
  intros ev w Hw. destruct ev as [mutations|m| |element].
  - simpl. rewrite observerCallback_forEach.
    apply (forEach_preserves P); [|exact Hw]. intros x s. apply Hp.
  - simpl. unfold onMessage. destruct (bool_decide (type m = "SET_GAIN")); simpl.
    + apply Hg, Hw.
    + destruct (bool_decide (type m = "GET_STATUS")); exact Hw.
  - apply Hr, Hw.
  - apply Hc, Hw.
Qed.

Lemma constructor_invariant (P : World -> Prop) (document : list Node) (b : Browser) :
  (forall element w, P w -> P (processMediaElement element w)) ->
  P {| this := {| audioContext := None; mediaElements := ∅; gainValue := 1 |};
       browser := b |} ->
  P (constructor document b).
Proof.
  intros Hp H0. unfold constructor, init, processExistingMedia.
  apply (forEach_preserves P); [|exact H0]. intros x s. apply Hp.
Qed.

Lemma getAudioContext_fresh (w : World) :
  audioContext (this w) = None ->
  fst (getAudioContext w)
  = {| ctxId := contextsCreated (browser w);
       state := if autoplayAllowed (browser w) then running else suspended;
       resumeCalls := 0; nodesCreated := 0; connections := [] |}.
Proof. unfold getAudioContext. intros ->. reflexivity. Qed.

(** The chain and the context a successful build leaves, in full. *)
Lemma processMediaElement_built (element : Element) (w : World) :
  has element (mediaElements (this w)) = false ->
  element ∉ captured (browser w) ->
  let context := fst (getAudioContext w) in
  let n := nodesCreated context in
  mediaElements (this (processMediaElement element w))
  = <[element :=
        {| source := {| sourceId := S n; mediaElement := element |};
           gainNode := {| gainId := S (S n); gain := {| value := gainValue (this w) |} |};
           compressor :=
             {| compressorId := S (S (S n));
                threshold := {| value := -6 |};
                knee := {| value := 30 |};
                ratio := {| value := 12 |};
                attack := {| value := 0.003 |};
                release := {| value := 0.25 |} |} |}]> (mediaElements (this w))
  /\ audioContext (this (processMediaElement element w))
     = Some {| ctxId := ctxId context; state := state context;
               resumeCalls := resumeCalls context;
               nodesCreated := S (S (S n));
               connections :=
                 ((connections context ++ [(S n, S (S n))])
                    ++ [(S (S n), S (S (S n)))])
                   ++ [(S (S (S n)), destination)] |}.
Proof.
  intros Hhas Hcap. cbv zeta. unfold processMediaElement. rewrite Hhas.
  pose proof (getAudioContext_frame w) as H.
  destruct (getAudioContext w) as [context w1] eqn:E. simpl in H |- *.
  destruct H as (Hm & Hg & Hc & Hl & Ha).
  unfold processMediaElement_try, createMediaElementSource.
  rewrite decide_False by (rewrite Hc; assumption). simpl.
  rewrite Hm, Hg. split; reflexivity.
Qed.

(** The registry after a call, by the three ways it can go. *)
Lemma processMediaElement_registry (element : Element) (w : World) :
  mediaElements (this (processMediaElement element w)) = mediaElements (this w)
  \/ (mediaElements (this w) !! element = None
      /\ (element ∉ captured (browser w))
      /\ exists chain,
           mediaElements (this (processMediaElement element w))
           = <[element := chain]> (mediaElements (this w))
           /\ value (gain (gainNode chain)) = gainValue (this w)
           /\ mediaElement (source chain) = element
           /\ tuned (compressor chain)).
Proof.
  destruct (processMediaElement_cases element w) as [Hhas|[[Hhas Hcap]|[Hhas Hcap]]].
  - left. rewrite processMediaElement_registered by assumption. reflexivity.
  - left. apply processMediaElement_unbindable_frame; assumption.
  - right. split; [apply has_false, Hhas|]. split; [exact Hcap|].
    destruct (processMediaElement_built element w Hhas Hcap) as [-> _].
    eexists. split; [reflexivity|]. repeat split.
Qed.

Lemma processMediaElement_captured (element : Element) (w : World) :
  (mediaElements (this (processMediaElement element w)) = mediaElements (this w)
   /\ captured (browser (processMediaElement element w)) = captured (browser w))
  \/ (mediaElements (this w) !! element = None
      /\ (element ∉ captured (browser w))
      /\ dom (mediaElements (this (processMediaElement element w)))
         = {[element]} ∪ dom (mediaElements (this w))
      /\ captured (browser (processMediaElement element w))
         = {[element]} ∪ captured (browser w)).
Proof.
  destruct (processMediaElement_cases element w) as [Hhas|[[Hhas Hcap]|[Hhas Hcap]]].
  - left. rewrite processMediaElement_registered by assumption. auto.
  - left. apply processMediaElement_unbindable_frame; assumption.
  - right. split; [apply has_false, Hhas|]. split; [exact Hcap|].
    destruct (processMediaElement_bindable element w Hhas Hcap)
      as ((chain & -> & _) & _ & -> & _).
    split; [apply dom_insert_L|reflexivity].
Qed.


(** X2. Nothing in a page's life removes or rebuilds a chain: an element
    that is registered stays registered with the source node and the
    limiter node it was given, whatever events follow, so the count the
    booster reports never goes down. *)
Theorem registered_chains_are_kept (events : list Event) (w : World) :
  (forall element chain,
      mediaElements (this w) !! element = Some chain ->
      exists chain',
        mediaElements (this (run events w)) !! element = Some chain'
        /\ source chain' = source chain
        /\ compressor chain' = compressor chain)
  /\ getMediaCount w <= getMediaCount (run events w).
Proof.
  assert (Hkept : forall element chain,
             mediaElements (this w) !! element = Some chain ->
             exists chain',
               mediaElements (this (run events w)) !! element = Some chain'
               /\ source chain' = source chain
               /\ compressor chain' = compressor chain).
  { apply (run_invariant
             (fun w' => forall element chain,
                  mediaElements (this w) !! element = Some chain ->
                  exists chain',
                    mediaElements (this w') !! element = Some chain'
                    /\ source chain' = source chain
                    /\ compressor chain' = compressor chain)).
    - intros x w' Hw' element chain Hin.
      destruct (Hw' element chain Hin) as (chain' & Hin' & Hs & Hc).
      destruct (processMediaElement_registry x w')
        as [->|(Hnone & _ & built & -> & _)]; [eauto|].
      exists chain'. rewrite lookup_insert_ne by congruence. auto.
    - intros g w' Hw' element chain Hin.
      destruct (Hw' element chain Hin) as (chain' & Hin' & Hs & Hc).
      exists (set_chain_gain g chain'). rewrite setGain_lookup, Hin'. auto.
    - intros w' Hw'. exact Hw'.
    - intros x w' Hw'. exact Hw'.
    - eauto. }
  split; [exact Hkept|].
  unfold getMediaCount. rewrite <- !size_dom. apply subseteq_size.
  intros element Hin. apply elem_of_dom in Hin as [chain Hin].
  destruct (Hkept element chain Hin) as (chain' & Hin' & _).
  apply elem_of_dom. eauto.
Qed.

(** X3. At every moment of a page's life each registry entry is the
    chain of its own key: the source node of the chain stored for an
    element is bound to that element, and the element counts as captured
    in the browser. *)
Theorem registered_elements_are_bound
    (autoplay : bool) (owned : gset Element) (document : list Node) (events : list Event) :
  let w := run events (constructor document (pageLoad autoplay owned)) in
  map_Forall (fun element chain =>
                mediaElement (source chain) = element
                /\ element ∈ captured (browser w))
    (mediaElements (this w)).
Proof.
  cbv zeta.
  assert (Hp : forall x w,
             map_Forall (fun element chain =>
                           mediaElement (source chain) = element
                           /\ element ∈ captured (browser w))
               (mediaElements (this w)) ->
             map_Forall (fun element chain =>
                           mediaElement (source chain) = element
                           /\ element ∈ captured (browser (processMediaElement x w)))
               (mediaElements (this (processMediaElement x w)))).
  { intros x w Hw.
    destruct (processMediaElement_registry x w)
      as [Hsame|(_ & _ & chain & Hins & _ & Hsrc & _)].
    - rewrite Hsame. intros element chain Hin.
      destruct (Hw element chain Hin) as [Hs Hc].
      split; [exact Hs|]. apply processMediaElement_captured_mono, Hc.
    - rewrite Hins. apply map_Forall_insert_2.
      + split; [exact Hsrc|].
        assert (Hh : has x (mediaElements (this (processMediaElement x w))) = true).
        { apply has_true. rewrite Hins, lookup_insert_eq. eauto. }
        destruct (processMediaElement_captured x w) as [[Hm _]|(_ & _ & _ & ->)].
        * rewrite Hm in Hins.
          apply (f_equal (fun m => m !! x)) in Hins.
          rewrite lookup_insert_eq in Hins.
          destruct (settled_after x w) as [Hreg|Hcap]; [|exact Hcap].
          destruct (processMediaElement_cases x w) as [Hhas|[[Hhas Hcap]|[Hhas Hcap]]].
          -- apply has_true in Hhas as [c Hc]. destruct (Hw x c Hc) as [_ Hcap].
             apply processMediaElement_captured_mono, Hcap.
          -- apply processMediaElement_captured_mono, Hcap.
          -- apply has_false in Hhas. congruence.
        * apply elem_of_union_l, elem_of_singleton. reflexivity.
      + intros element chain' Hin. destruct (Hw element chain' Hin) as [Hs Hc].
        split; [exact Hs|]. apply processMediaElement_captured_mono, Hc. }
  apply (run_invariant
           (fun w => map_Forall (fun element chain =>
                                   mediaElement (source chain) = element
                                   /\ element ∈ captured (browser w))
                       (mediaElements (this w)))).
  - exact Hp.
  - intros g w Hw element chain'. rewrite setGain_lookup, setGain_browser.
    destruct (mediaElements (this w) !! element) as [chain|] eqn:E; [|discriminate].
    simpl. intros [= <-]. apply (Hw element chain E).
  - intros w Hw. exact Hw.
  - intros x w Hw element chain Hin. destruct (Hw element chain Hin) as [Hs Hc].
    split; [exact Hs|]. simpl. apply elem_of_union_r, Hc.
  - apply constructor_invariant; [exact Hp|apply map_Forall_empty].
Qed.

(** X4. At every moment of a page's life the limiter of every chain has
    the settings it was built with: threshold -6, knee 30, ratio 12,
    attack 0.003, release 0.25.  No gain change touches them. *)
Theorem limiter_settings_are_fixed
    (autoplay : bool) (owned : gset Element) (document : list Node) (events : list Event) :
  map_Forall (fun _ chain => tuned (compressor chain))
    (mediaElements (this (run events (constructor document (pageLoad autoplay owned))))).
Proof.
  assert (Hp : forall x w,
             map_Forall (fun _ chain => tuned (compressor chain)) (mediaElements (this w)) ->
             map_Forall (fun _ chain => tuned (compressor chain))
               (mediaElements (this (processMediaElement x w)))).
  { intros x w Hw.
    destruct (processMediaElement_registry x w)
      as [->|(_ & _ & chain & -> & _ & _ & Ht)]; [exact Hw|].
    apply map_Forall_insert_2; assumption. }
  apply (run_invariant
           (fun w => map_Forall (fun _ chain => tuned (compressor chain))
                       (mediaElements (this w)))).
  - exact Hp.
  - intros g w Hw element chain'. rewrite setGain_lookup.
    destruct (mediaElements (this w) !! element) as [chain|] eqn:E; [|discriminate].
    simpl. intros [= <-]. apply (Hw element chain E).
  - intros w Hw. exact Hw.
  - intros x w Hw. exact Hw.
  - apply constructor_invariant; [exact Hp|apply map_Forall_empty].
Qed.

(** ** The audio graph *)








(** ** What discovery registers, exactly *)

Lemma Node_induction (P : Node -> Prop) :
  (forall id name children, Forall P children -> P (ElementNode id name children)) ->
  (forall data, P (TextNode data)) ->
  (forall data, P (CommentNode data)) ->
  forall n, P n.
Proof.
  intros HE HT HC. fix IH 1.
  intros [id name children|data|data]; [apply HE|apply HT|apply HC].
  induction children as [|c children IHc]; constructor; [apply IH|exact IHc].
Qed.

Lemma mediaIn_child (element : Element) (c n : Node) :
  In c (childNodes n) -> mediaIn element c -> mediaIn element n.
Proof.
  intros Hc (d & name & children & Hd & Heq & Hname).
  exists d, name, children. split; [right|auto].
  destruct Hd as [Hd|Hd].
  - rewrite Hd. apply Descendant_child, Hc.
  - eapply Descendant_deeper; eassumption.
Qed.

(** The selector finds the media elements of a subtree, all of them and
    nothing else. *)
Lemma matchMedia_mediaIn (element : Element) (n : Node) :
  In element (matchMedia n) <-> mediaIn element n.
Proof.
  split.
  - revert n. apply (Node_induction (fun n => In element (matchMedia n) -> mediaIn element n)).
    + intros id name children IH Hin. simpl in Hin.
      apply in_app_or in Hin as [Hself|Hdeep].
      * destruct (isMediaName name) eqn:Hname; [|destruct Hself].
        destruct Hself as [->|[]]. exists (ElementNode element name children), name, children.
        auto.
      * apply in_flat_map in Hdeep as (c & Hc & Hin).
        apply (mediaIn_child element c); [exact Hc|].
        rewrite Forall_forall in IH. apply IH; [|exact Hin].
        apply list_elem_of_In, Hc.
    + intros data [].
    + intros data [].
  - intros (d & name & children & [->|Hd] & -> & Hname).
    + apply matchMedia_self, Hname.
    + eapply matchMedia_descendant; [exact Hd|]. apply matchMedia_self, Hname.
Qed.

(** The registry after a run of discovery calls: what was registered,
    and of the elements in the run those the browser had not captured. *)
Ltac by_membership x :=
  let y := fresh "y" in
  apply set_eq; intros y;
  rewrite ?elem_of_union, ?elem_of_difference, ?elem_of_union, ?elem_of_singleton;
  destruct (decide (y = x)) as [->|?]; tauto.

Lemma forEach_processMediaElement_dom (l : list Element) (w : World) :
  dom (mediaElements (this (forEach processMediaElement l w)))
  = dom (mediaElements (this w)) ∪ (list_to_set l ∖ captured (browser w)).
Proof.
  revert w. induction l as [|x l IH]; intros w.
  - simpl. apply set_eq. intros y.
    rewrite elem_of_union, elem_of_difference, elem_of_empty. tauto.
  - rewrite forEach_cons, IH. simpl.
    destruct (processMediaElement_cases x w) as [Hhas|[[Hhas Hcap]|[Hhas Hcap]]].
    + rewrite processMediaElement_registered by assumption.
      apply has_true, elem_of_dom in Hhas. by_membership x.
    + destruct (processMediaElement_unbindable_frame x w Hhas Hcap) as [-> ->].
      by_membership x.
    + destruct (processMediaElement_captured x w) as [[_ Hc]|(_ & _ & -> & ->)].
      * destruct (processMediaElement_bindable x w Hhas Hcap) as (_ & _ & Hc' & _).
        rewrite Hc in Hc'. exfalso. apply Hcap. rewrite Hc'.
        apply elem_of_union_l, elem_of_singleton. reflexivity.
      * by_membership x.
Qed.

Lemma constructor_dom (autoplay : bool) (owned : gset Element) (document : list Node) :
  dom (mediaElements (this (constructor document (pageLoad autoplay owned))))
  = list_to_set (document_querySelectorAll document) ∖ owned.
Proof.
  unfold constructor, init, processExistingMedia.
  rewrite forEach_processMediaElement_dom. simpl.
  rewrite dom_empty_L. apply (left_id_L ∅ (∪)).
Qed.

Lemma document_querySelectorAll_mediaIn (element : Element) (document : list Node) :
  element ∈ (list_to_set (document_querySelectorAll document) : gset Element)
  <-> exists root, In root document /\ mediaIn element root.
Proof.
  rewrite elem_of_list_to_set, list_elem_of_In.
  unfold document_querySelectorAll. rewrite in_flat_map.
  split; intros (root & Hroot & Hin); exists root; (split; [exact Hroot|]);
    apply matchMedia_mediaIn, Hin.
Qed.

(** X6. The startup scan registers the media elements of the document,
    at whatever depth, that the page has not captured itself, and nothing
    else; the count reported afterwards is their number. *)
Theorem startup_scan_registers_the_document_media
    (autoplay : bool) (owned : gset Element) (document : list Node) (element : Element) :
  let w := constructor document (pageLoad autoplay owned) in
  (element ∈ dom (mediaElements (this w))
   <-> (element ∉ owned) /\ exists root, In root document /\ mediaIn element root)
  /\ getMediaCount w
     = size (list_to_set (document_querySelectorAll document) ∖ owned : gset Element).
Proof.
  cbv zeta. unfold getMediaCount. rewrite <- size_dom, constructor_dom.
  split; [|reflexivity].
  rewrite elem_of_difference, document_querySelectorAll_mediaIn. tauto.
Qed.


(** X8. A batch of insertions that contains no media element, neither
    among the inserted nodes nor below them, leaves everything as it
    was: no context is created, nothing is logged. *)
Theorem insertions_without_media_change_nothing
    (mutations : list MutationRecord) (w : World) :
  (forall mutation node element,
      In mutation mutations -> In node (addedNodes mutation) -> ~ mediaIn element node) ->
  observerCallback mutations w = w.
Proof.
  intros Hnone. rewrite observerCallback_forEach.
  assert (Hnil : flat_map (fun mutation => flat_map matchMedia (addedNodes mutation))
                   mutations = []).
  { destruct (flat_map _ mutations) as [|element l] eqn:E; [reflexivity|].
    assert (Hin : In element
                    (flat_map (fun mutation => flat_map matchMedia (addedNodes mutation))
                       mutations)) by (rewrite E; left; reflexivity).
    apply in_flat_map in Hin as (mutation & Hm & Hin).
    apply in_flat_map in Hin as (node & Hn & Hin).
    exfalso. apply (Hnone mutation node element Hm Hn).
    apply matchMedia_mediaIn, Hin. }
  rewrite Hnil. reflexivity.
Qed.

(** The notification of a paragraph with some text and a comment. *)
Lemma insertions_without_media_change_nothing_witness :
  observerCallback
    [{| addedNodes := [ElementNode 30%positive "P" [TextNode "hello"];
                       CommentNode "note"] |}] ownedPage
  = ownedPage.
Proof.
  apply insertions_without_media_change_nothing.
  intros mutation node element Hm Hn Hin.
  apply matchMedia_mediaIn in Hin.
  destruct Hm as [<-|[]]. simpl in Hn.
  destruct Hn as [<-|[<-|[]]]; exact Hin.
Defined.


(** ** Elements that cannot be bound *)

Lemma console_debug_console (text detail : string) (b : Browser) :
  console (console_debug text detail b) = console b ++ [(text, detail)].
Proof. reflexivity. Qed.

(** X10. An element that cannot be bound is tried again on every
    discovery call: [n] calls on it write [n] debug lines, one per
    attempt, and register nothing. *)
Theorem unbindable_element_is_retried_every_time (n : nat) (element : Element) (w : World) :
  has element (mediaElements (this w)) = false ->
  element ∈ captured (browser w) ->
  let w' := forEach processMediaElement (replicate n element) w in
  console (browser w')
  = console (browser w)
    ++ replicate n ("AudioBooster: Could not process element", message InvalidStateError)
  /\ mediaElements (this w') = mediaElements (this w)
  /\ captured (browser w') = captured (browser w).
Proof.
  revert w. induction n as [|n IH]; intros w Hhas Hcap; cbv zeta.
  - simpl. rewrite app_nil_r. auto.
  - change (replicate (S n) element) with (element :: replicate n element).
    rewrite forEach_cons.
    destruct (processMediaElement_unbindable_frame element w Hhas Hcap) as [Hm Hc].
    destruct (IH (processMediaElement element w)) as (Hl' & Hm' & Hc').
    { rewrite Hm. exact Hhas. }
    { rewrite Hc. exact Hcap. }
    rewrite Hl', Hm', Hc', Hm, Hc. split; [|auto].
    rewrite processMediaElement_unbindable by assumption. simpl.
    destruct (getAudioContext_frame w) as (_ & _ & _ & -> & _).
    rewrite <- app_assoc. reflexivity.
Qed.

(** Three discovery calls on the element [ownedPage] cannot bind. *)
Lemma unbindable_element_is_retried_every_time_witness :
  has 1%positive (mediaElements (this ownedPage)) = false
  /\ 1%positive ∈ captured (browser ownedPage)
  /\ console (browser (forEach processMediaElement (replicate 3 1%positive) ownedPage))
     = console (browser ownedPage)
       ++ replicate 3 ("AudioBooster: Could not process element",
                       message InvalidStateError).
Proof.
  assert (H1 : has 1%positive (mediaElements (this ownedPage)) = false)
    by (vm_compute; reflexivity).
  assert (H2 : 1%positive ∈ captured (browser ownedPage))
    by (vm_compute; reflexivity).
  split; [exact H1|]. split; [exact H2|].
  exact (proj1 (unbindable_element_is_retried_every_time 3 1%positive ownedPage H1 H2)).
Defined.

(** ** Gain requests in sequence *)




(** X13. Only a gain change asks the context to resume: through the
    constructor and any run of events without a [SET_GAIN] request no
    [resume()] is called, and a context created where autoplay is blocked
    is still suspended. *)
Theorem only_setGain_resumes
    (owned : gset Element) (document : list Node) (events : list Event) :
  forallb (fun ev => negb (isSetGain ev)) events = true ->
  let w := run events (constructor document (pageLoad false owned)) in
  forall c, audioContext (this w) = Some c -> resumeCalls c = 0 /\ state c = suspended.
Proof.
  intros Hev. cbv zeta.
  set (P := fun w : World =>
              autoplayAllowed (browser w) = false
              /\ forall c, audioContext (this w) = Some c ->
                           resumeCalls c = 0 /\ state c = suspended).
  assert (Hp : forall x w, P w -> P (processMediaElement x w)).
  { intros x w [Ha Hw]. unfold P.
    assert (H1 : forall c, fst (getAudioContext w) = c ->
                           resumeCalls c = 0 /\ state c = suspended).
    { intros c <-. destruct (audioContext (this w)) as [c0|] eqn:E.
      - rewrite (getAudioContext_existing w c0 E). apply Hw. reflexivity.
      - rewrite getAudioContext_fresh by assumption. simpl. rewrite Ha. auto. }
    destruct (processMediaElement_cases x w) as [Hhas|[[Hhas Hcap]|[Hhas Hcap]]].
    - rewrite processMediaElement_registered by assumption. split; assumption.
    - rewrite processMediaElement_unbindable by assumption. simpl.
      destruct (getAudioContext_frame w) as (_ & _ & _ & _ & ->).
      split; [exact Ha|]. rewrite getAudioContext_audioContext.
      intros c [= <-]. apply H1. reflexivity.
    - destruct (processMediaElement_bindable x w Hhas Hcap)
        as (_ & _ & _ & _ & -> & _ & c' & -> & _ & Hs & Hr).
      split; [exact Ha|]. intros c [= <-]. rewrite Hs, Hr.
      destruct (H1 _ eq_refl). auto. }
  assert (Hrun : forall evs w, forallb (fun ev => negb (isSetGain ev)) evs = true ->
                               P w -> P (run evs w)).
  { unfold run. induction evs as [|ev evs IH]; intros w Hall Hw; [exact Hw|].
    simpl in Hall. apply andb_prop in Hall as [Hev1 Hall].
    rewrite forEach_cons. apply IH; [exact Hall|].
    destruct ev as [mutations|m| |x]; simpl.
    - rewrite observerCallback_forEach.
      apply (forEach_preserves P); [|exact Hw]. intros y s. apply Hp.
    - simpl in Hev1. apply negb_true_iff in Hev1. unfold onMessage. rewrite Hev1.
      destruct (bool_decide (type m = "GET_STATUS")); exact Hw.
    - destruct Hw as [Ha Hw]. split; [exact Ha|]. simpl.
      destruct (audioContext (this w)) as [c0|] eqn:E; [|discriminate].
      simpl. intros c [= <-]. destruct (Hw c0 eq_refl) as [Hr Hs].
      unfold settle. rewrite Hr. auto.
    - destruct Hw as [Ha Hw]. split; [exact Ha|]. exact Hw. }
  apply Hrun; [exact Hev|].
  apply constructor_invariant; [exact Hp|].
  split; [reflexivity|]. intros c. discriminate.
Qed.

(** The page with two videos after the widget was inserted. *)
Lemma only_setGain_resumes_witness :
  forallb (fun ev => negb (isSetGain ev))
    [Mutations [{| addedNodes := [widget] |}]; ResumeSettled] = true
  /\ (state <$> audioContext
                  (this (run [Mutations [{| addedNodes := [widget] |}]; ResumeSettled]
                           (constructor twoVideos (pageLoad false ∅)))))
     = Some suspended.
Proof.
  split; [reflexivity|].
  destruct (audioContext
              (this (run [Mutations [{| addedNodes := [widget] |}]; ResumeSettled]
                       (constructor twoVideos (pageLoad false ∅))))) as [c|] eqn:E.
  - simpl. f_equal.
    exact (proj2 (only_setGain_resumes ∅ twoVideos
                    [Mutations [{| addedNodes := [widget] |}]; ResumeSettled]
                    eq_refl c E)).
  - vm_compute in E. discriminate.
Defined.

(** ** The popup's status line *)

Lemma classList_add_elem_of (token t : string) (l : list string) :
  t ∈ classList_add token l <-> t = token \/ t ∈ l.
Proof.
  unfold classList_add. case_bool_decide as Hin.
  - split; [auto|]. intros [->|H]; assumption.
  - rewrite elem_of_app, list_elem_of_singleton. tauto.
Qed.

Lemma classList_remove_elem_of (token t : string) (l : list string) :
  t ∈ classList_remove token l <-> t <> token /\ t ∈ l.
Proof. unfold classList_remove. rewrite list_elem_of_filter. tauto. Qed.

Lemma classList_add_again (token : string) (l : list string) :
  classList_add token (classList_add token l) = classList_add token l.
Proof.
  unfold classList_add at 1. rewrite bool_decide_eq_true_2; [reflexivity|].
  apply classList_add_elem_of. auto.
Qed.

Lemma classList_remove_again (token : string) (l : list string) :
  classList_remove token (classList_remove token l) = classList_remove token l.
Proof.
  unfold classList_remove. rewrite list_filter_filter.
  apply list_filter_iff. intros t. tauto.
Qed.

(** X14. After [updateStatus] the status carries the class [found] if
    and only if the count is positive, whatever it carried before; its
    other classes are as they were; the text is the no-media text if and
    only if the count is zero; and a second call with the same count
    changes nothing. *)
Theorem updateStatus_marks_found_by_count (mediaCount : nat) (status : StatusElement) :
  ("found" ∈ classList (updateStatus mediaCount status) <-> 0 < mediaCount)
  /\ (forall token, token <> "found" ->
        (token ∈ classList (updateStatus mediaCount status) <-> token ∈ classList status))
  /\ (textContent (updateStatus mediaCount status) = "No media elements found"
      <-> mediaCount = 0)
  /\ updateStatus mediaCount (updateStatus mediaCount status)
     = updateStatus mediaCount status.
Proof.
  unfold updateStatus. case_bool_decide as Hpos; simpl.
  - split; [rewrite classList_add_elem_of; intuition auto|].
    split; [intros token Hne; rewrite classList_add_elem_of; tauto|].
    split; [split; [discriminate|lia]|].
    rewrite classList_add_again. reflexivity.
  - split; [rewrite classList_remove_elem_of; split; [intros [H _]; congruence|lia]|].
    split; [intros token Hne; rewrite classList_remove_elem_of; tauto|].
    split; [split; [lia|reflexivity]|].
    rewrite classList_remove_again. reflexivity.
Qed.

Lemma updateStatus_found (mediaCount : nat) (status : StatusElement) :
  "found" ∈ classList (updateStatus mediaCount status) <-> 0 < mediaCount.
Proof.
  unfold updateStatus. case_bool_decide as Hpos; simpl.
  - rewrite classList_add_elem_of. intuition auto.
  - rewrite classList_remove_elem_of. split; [intros [H _]; congruence|lia].
Qed.


(** X16. A popup opened on a freshly loaded page marks its status as
    [found] if and only if the document holds, at some depth, a media
    element that the page has not captured itself. *)
Theorem popup_finds_media_iff_the_document_has_some
    (autoplay : bool) (owned : gset Element) (document : list Node)
    (status : StatusElement) :
  "found" ∈ classList
              (fst (popup_getStatus
                      (Some (constructor document (pageLoad autoplay owned))) status))
  <-> exists element root,
        (element ∉ owned) /\ In root document /\ mediaIn element root.
Proof.
  change (fst (popup_getStatus (Some (constructor document (pageLoad autoplay owned)))
                 status))
    with (updateStatus (getMediaCount (constructor document (pageLoad autoplay owned)))
            status).
  rewrite updateStatus_found. unfold getMediaCount.
  rewrite <- size_dom, constructor_dom. split.
  - intros Hpos. apply size_pos_elem_of in Hpos as (element & Hin).
    apply elem_of_difference in Hin as [Hin Hout].
    apply document_querySelectorAll_mediaIn in Hin as (root & Hroot & Hin).
    exists element, root. auto.
  - intros (element & root & Hout & Hroot & Hin).
    assert (Hel : element ∈ (list_to_set (document_querySelectorAll document) ∖ owned
                             : gset Element)).
    { apply elem_of_difference. split; [|exact Hout].
      apply document_querySelectorAll_mediaIn. eauto. }
    destruct (size (list_to_set (document_querySelectorAll document) ∖ owned
                    : gset Element)) eqn:E; [|lia].
    apply size_empty_inv in E. apply E in Hel.
    apply not_elem_of_empty in Hel. destruct Hel.
Qed.

(** ** Responses, repeated notifications, lost elements *)


Lemma settled_processMediaElement_registry (element : Element) (w : World) :
  settled element w ->
  mediaElements (this (processMediaElement element w)) = mediaElements (this w).
Proof.
  intros Hs.
  destruct (processMediaElement_cases element w) as [Hhas|[[Hhas Hcap]|[Hhas Hcap]]].
  - rewrite processMediaElement_registered by assumption. reflexivity.
  - apply processMediaElement_unbindable_frame; assumption.
  - destruct Hs as [Hreg|Hin]; [congruence|contradiction].
Qed.

Lemma settled_forEach_registry (l : list Element) (w : World) :
  (forall element, In element l -> settled element w) ->
  mediaElements (this (forEach processMediaElement l w)) = mediaElements (this w).
Proof.
  revert w. induction l as [|x l IH]; intros w Hall; [reflexivity|].
  rewrite forEach_cons, IH.
  - apply settled_processMediaElement_registry, Hall. left; reflexivity.
  - intros element Hin. apply settled_step, Hall. right; exact Hin.
Qed.

Lemma forEach_processMediaElement_captured_mono (l : list Element) (w : World) :
  captured (browser w) ⊆ captured (browser (forEach processMediaElement l w)).
Proof.
  apply (forEach_preserves (fun s => captured (browser w) ⊆ captured (browser s)));
    [|reflexivity].
  intros x s Hs. etransitivity; [exact Hs|]. apply processMediaElement_captured_mono.
Qed.

Lemma forEach_processMediaElement_settles (l : list Element) (w : World) (element : Element) :
  In element l -> settled element (forEach processMediaElement l w).
Proof.
  intros Hin. unfold settled.
  rewrite forEach_processMediaElement_has by assumption.
  destruct (has element (mediaElements (this w))); [auto|]. simpl.
  case_bool_decide as Hc; [auto|]. right.
  apply forEach_processMediaElement_captured_mono.
  destruct (decide (element ∈ captured (browser w))); [assumption|contradiction].
Qed.

(** X18. Nodes that are notified again (detached and attached once more,
    or reported twice) keep the chains they have: a second run of the
    observer callback over the same insertions leaves the registry, with
    every chain in it, as the first run left it. *)
Theorem renotified_nodes_keep_their_chains (mutations : list MutationRecord) (w : World) :
  mediaElements (this (observerCallback mutations (observerCallback mutations w)))
  = mediaElements (this (observerCallback mutations w)).
Proof.
  rewrite !observerCallback_forEach. apply settled_forEach_registry.
  intros element Hin. apply forEach_processMediaElement_settles, Hin.
Qed.

(** X19. An element that could not be bound is never managed later:
    once a discovery call has failed on it, no sequence of events brings
    it into the registry. *)
Theorem unbindable_element_stays_unmanaged (events : list Event) (element : Element) (w : World) :
  has element (mediaElements (this w)) = false ->
  element ∈ captured (browser w) ->
  has element (mediaElements (this (run events w))) = false.
Proof.
  intros Hhas Hcap.
  apply (run_invariant
           (fun w' => has element (mediaElements (this w')) = false
                      /\ element ∈ captured (browser w'))); [| | | |auto].
  - intros x w' [Hh Hc].
    destruct (settled_step x element w' (or_intror Hc)) as [_ Heq].
    split; [rewrite Heq; exact Hh|]. apply processMediaElement_captured_mono, Hc.
  - intros g w' [Hh Hc]. split; [|exact Hc].
    apply has_false. rewrite setGain_lookup. apply has_false in Hh. rewrite Hh.
    reflexivity.
  - intros w' H. exact H.
  - intros x w' [Hh Hc]. split; [exact Hh|]. simpl. apply elem_of_union_r, Hc.
Qed.

(** The element [ownedPage] cannot bind, notified and asked about. *)
Lemma unbindable_element_stays_unmanaged_witness :
  has 1%positive (mediaElements (this ownedPage)) = false
  /\ 1%positive ∈ captured (browser ownedPage)
  /\ has 1%positive
       (mediaElements
          (this (run [Mutations [{| addedNodes := [ElementNode 1%positive "VIDEO" []] |}];
                      Request {| type := "SET_GAIN"; messageValue := 2 |}]
                   ownedPage))) = false.
Proof.
  assert (H1 : has 1%positive (mediaElements (this ownedPage)) = false)
    by (vm_compute; reflexivity).
  assert (H2 : 1%positive ∈ captured (browser ownedPage))
    by (vm_compute; reflexivity).
  split; [exact H1|]. split; [exact H2|].
  exact (unbindable_element_stays_unmanaged _ 1%positive ownedPage H1 H2).
Defined.

Example status_line_singular_and_plural :
  textContent (updateStatus 1 {| textContent := ""; classList := [] |})
  = "Found 1 media element"
  /\ textContent (updateStatus 12 {| textContent := ""; classList := ["found"] |})
     = "Found 12 media elements"
  /\ classList (updateStatus 12 {| textContent := ""; classList := ["found"] |})
     = ["found"]
  /\ fst (popup_getStatus (Some (constructor twoVideos (pageLoad false ∅)))
            {| textContent := ""; classList := [] |})
     = {| textContent := "Found 2 media elements"; classList := ["found"] |}.
Proof. repeat split; vm_compute; reflexivity. Qed.

(** * The listener and the value it is handed *)

Lemma forEachChain_accepted (v : Wire.Value) (q : Q) :
  Wire.toFloat (Wire.ToNumber v) = Some q ->
  forall (entries : list (Element * Chain)) (m : gmap Element Chain),
    NoDup entries.*1 ->
    exists m',
      Wire.forEachChain (Wire.assign_gain v) entries m = (m', Normal tt)
      /\ forall element,
           m' !! element
           = match (list_to_map entries : gmap Element Chain) !! element with
             | Some chain => Some (set_chain_gain q chain)
             | None => m !! element
             end.
Proof.
  intros Hq. induction entries as [|[e0 c0] entries IH]; intros m Hnd.
  - exists m. split; [reflexivity|]. intros element. simpl.
    rewrite lookup_empty. reflexivity.
  - simpl in Hnd. apply NoDup_cons in Hnd as [Hfresh Hnd].
    simpl. unfold Wire.assign_gain at 1. rewrite Hq.
    destruct (IH (<[e0 := set_chain_gain q c0]> m) Hnd) as (m' & -> & Hm').
    exists m'. split; [reflexivity|]. intros element. rewrite Hm'.
    destruct (decide (element = e0)) as [->|Hne].
    + rewrite (not_elem_of_list_to_map_1 entries e0 Hfresh).
      rewrite !lookup_insert_eq. reflexivity.
    + rewrite !lookup_insert_ne by congruence. reflexivity.
Qed.

(** A value the gain accepts reaches every chain. *)
Lemma Wire_setGain_accepted (v : Wire.Value) (q : Q) (w : Wire.World) :
  Wire.toFloat (Wire.ToNumber v) = Some q ->
  Wire.setGain v w
  = ({| Wire.this :=
          {| Wire.audioContext :=
               match Wire.audioContext (Wire.this w) with
               | Some c => Some (match state c with suspended => resume c | _ => c end)
               | None => None
               end;
             Wire.mediaElements := set_chain_gain q <$> Wire.mediaElements (Wire.this w);
             Wire.gainValue := v |};
        Wire.browser := Wire.browser w |}, Normal tt).
Proof.
  intros Hq. unfold Wire.setGain.
  destruct (forEachChain_accepted v q Hq
              (map_to_list (Wire.mediaElements (Wire.this w)))
              (Wire.mediaElements (Wire.this w))
              (NoDup_fst_map_to_list _)) as (m' & -> & Hm').
  assert (Heq : m' = set_chain_gain q <$> Wire.mediaElements (Wire.this w)).
  { apply map_eq. intros element. rewrite Hm', list_to_map_to_list, lookup_fmap.
    destruct (Wire.mediaElements (Wire.this w) !! element); reflexivity. }
  rewrite Heq.
  destruct (Wire.audioContext (Wire.this w)) as [c|]; [destruct (state c)|]; reflexivity.
Qed.

(** A value the gain rejects reaches no chain: the first assignment
    throws, and only an empty registry lets the call complete. *)
Lemma Wire_setGain_rejected (v : Wire.Value) (w : Wire.World) :
  Wire.toFloat (Wire.ToNumber v) = None ->
  Wire.mediaElements (Wire.this (fst (Wire.setGain v w)))
  = Wire.mediaElements (Wire.this w)
  /\ Wire.gainValue (Wire.this (fst (Wire.setGain v w))) = v
  /\ snd (Wire.setGain v w)
     = if decide (Wire.mediaElements (Wire.this w) = ∅) then Normal tt
       else Throw Wire.TypeError.
Proof.
  intros Hq. unfold Wire.setGain.
  destruct (map_to_list (Wire.mediaElements (Wire.this w))) as [|[e0 c0] entries] eqn:E.
  - apply map_to_list_empty_iff in E. simpl. rewrite decide_True by assumption. auto.
  - simpl. unfold Wire.assign_gain. rewrite Hq. simpl.
    rewrite decide_False; [auto|].
    intros Hempty. apply map_to_list_empty_iff in Hempty. congruence.
Qed.

(** On the numbers the gain accepts the listener is the one of the
    earlier sections. *)
Lemma Wire_onMessage_number (q : Q) (w : World) :
  Wire.toFloat (Wire.Finite q) = Some q ->
  Wire.onMessage {| Wire.type := "SET_GAIN"; Wire.value := Wire.Num (Wire.Finite q) |}
    (onWire w)
  = (onWire (setGain q w),
     {| Wire.responses := [Wire.SetGainResponse true (size (mediaElements (this w)))];
        Wire.completion := Normal true |}).
Proof.
  intros Hq. unfold Wire.onMessage. cbn [Wire.type Wire.value].
  rewrite bool_decide_eq_true_2 by reflexivity.
  rewrite (Wire_setGain_accepted (Wire.Num (Wire.Finite q)) q (onWire w) Hq).
  unfold Wire.getMediaCount, onWire.
  cbn [Wire.this Wire.mediaElements Wire.audioContext Wire.browser Wire.gainValue].
  rewrite map_size_fmap, setGain_mediaElements, setGain_audioContext, setGain_gainValue.
  reflexivity.
Qed.

(** C10, as the code has it.  Whatever value a [SET_GAIN] request
    carries, the handler stores it as the gain state unchecked and keeps
    the registry's elements.  When the value converts to a number the
    gain accepts (finite and within single range; zero and negative
    numbers are), that number becomes the gain of every registered chain
    and the single response is [{ success: true, mediaCount }] with the
    size of the registry.  A value the gain rejects changes no chain. *)
Theorem SET_GAIN_stores_any_value_unchecked (v : Wire.Value) (w : Wire.World) :
  let result := Wire.onMessage {| Wire.type := "SET_GAIN"; Wire.value := v |} w in
  Wire.gainValue (Wire.this (fst result)) = v
  /\ dom (Wire.mediaElements (Wire.this (fst result)))
     = dom (Wire.mediaElements (Wire.this w))
  /\ match Wire.toFloat (Wire.ToNumber v) with
     | Some q =>
         Wire.mediaElements (Wire.this (fst result))
         = set_chain_gain q <$> Wire.mediaElements (Wire.this w)
         /\ (forall element chain',
               Wire.mediaElements (Wire.this (fst result)) !! element = Some chain' ->
               value (gain (gainNode chain')) = q)
         /\ snd result
            = {| Wire.responses :=
                   [Wire.SetGainResponse true (size (Wire.mediaElements (Wire.this w)))];
                 Wire.completion := Normal true |}
     | None =>
         Wire.mediaElements (Wire.this (fst result)) = Wire.mediaElements (Wire.this w)
     end.
Proof.
  cbv zeta. unfold Wire.onMessage. simpl.
  destruct (Wire.toFloat (Wire.ToNumber v)) as [q|] eqn:Hq.
  - rewrite (Wire_setGain_accepted v q w Hq). simpl.
    split; [reflexivity|]. split; [apply dom_fmap_L|].
    split; [reflexivity|]. split.
    + intros element chain'. rewrite lookup_fmap.
      destruct (Wire.mediaElements (Wire.this w) !! element); [|discriminate].
      simpl. intros [= <-]. reflexivity.
    + unfold Wire.getMediaCount. simpl. rewrite map_size_fmap. reflexivity.
  - destruct (Wire_setGain_rejected v w Hq) as (Hm & Hg & Hc).
    destruct (Wire.setGain v w) as [w1 completed]. simpl in Hm, Hg, Hc.
    destruct completed; simpl; rewrite Hm, Hg; auto.
Qed.

(** C10, as stated, fails.  On the page with two videos a [SET_GAIN]
    request without a value ([undefined]), and one that carries [1e39],
    are stored as the gain state, but the first assignment to a gain
    throws: both chains keep gain 1, the listener is left by the
    exception and no response is sent. *)
Lemma SET_GAIN_without_a_number_gets_no_response :
  Wire.gainValue
    (Wire.this (fst (Wire.onMessage {| Wire.type := "SET_GAIN"; Wire.value := Wire.Undefined |}
                       (onWire (constructor twoVideos (pageLoad false ∅))))))
  = Wire.Undefined
  /\ snd (Wire.onMessage {| Wire.type := "SET_GAIN"; Wire.value := Wire.Undefined |}
            (onWire (constructor twoVideos (pageLoad false ∅))))
     = {| Wire.responses := []; Wire.completion := Throw Wire.TypeError |}
  /\ (value ∘ gain ∘ gainNode)
       <$> Wire.mediaElements
             (Wire.this (fst (Wire.onMessage
                                {| Wire.type := "SET_GAIN"; Wire.value := Wire.Undefined |}
                                (onWire (constructor twoVideos (pageLoad false ∅))))))
           !! 3%positive
     = Some 1%Q
  /\ snd (Wire.onMessage
            {| Wire.type := "SET_GAIN";
               Wire.value := Wire.Num (Wire.Finite (inject_Z (10 ^ 39))) |}
            (onWire (constructor twoVideos (pageLoad false ∅))))
     = {| Wire.responses := []; Wire.completion := Throw Wire.TypeError |}.
Proof. repeat split; vm_compute; reflexivity. Qed.

Example SET_GAIN_zero_negative_and_null_are_accepted :
  Wire.toFloat (Wire.ToNumber (Wire.Num (Wire.Finite 0))) = Some 0%Q
  /\ Wire.toFloat (Wire.ToNumber (Wire.Num (Wire.Finite (-2)))) = Some (-2)%Q
  /\ Wire.toFloat (Wire.ToNumber Wire.Null) = Some 0%Q
  /\ Wire.toFloat (Wire.ToNumber (Wire.Num (Wire.Finite (inject_Z (2 ^ 128 - 2 ^ 104)))))
     = Some (inject_Z (2 ^ 128 - 2 ^ 104))
  /\ Wire.toFloat (Wire.ToNumber (Wire.Num (Wire.Finite (inject_Z (2 ^ 128 - 2 ^ 103)))))
     = None
  /\ snd (Wire.onMessage
            {| Wire.type := "SET_GAIN"; Wire.value := Wire.Num (Wire.Finite (-2)) |}
            (onWire (constructor twoVideos (pageLoad false ∅))))
     = {| Wire.responses := [Wire.SetGainResponse true 2];
          Wire.completion := Normal true |}.
Proof. repeat split; vm_compute; reflexivity. Qed.
